(** * Methane-combustion PINN configuration script: model and verified properties

    Source: [methane_combustion_pinn.py].

    The script is configuration glue over a deep-learning PDE framework
    (DeepXDE) and an array library (NumPy).  What the script itself defines is
    embedded below definition by definition: the module constants, the residual
    function [pde], the initial-condition callbacks, the two boundary
    predicates, and [main], which builds the domain, the six conditions, the
    data set descriptor and the network, compiles, trains and saves.

    The framework's own services are not in the script.  They enter the model
    as explicit arguments:
      - automatic differentiation ([dde.grad.jacobian], [dde.grad.hessian]) is
        a record [Grad] of two functions returning one column per call;
      - the optimisation loop ([Model.train]) is a field of [Backend], an
        arbitrary function that may fail or return any parameters and losses.
    The framework's constructors ([Interval], [TimeDomain], [GeometryXTime],
    [DirichletBC], [IC], [TimePDE], [FNN], [Model]) are records holding the
    arguments the script passes; [compile] records the optimiser, [save]
    appends a checkpoint to the storage.

    Numbers.  The script computes with IEEE-754 binary floating point.  The
    arithmetic used by the script is abstracted by the class [Arith]; its
    instance [xfloat] keeps the special values of IEEE-754 (NaN, the two
    infinities, the two zeros) with their standard rules and treats every
    other value as the real number it denotes.  Rounding, overflow and
    underflow of finite results are outside the model: a product or an
    exponential of finite numbers is finite in [xfloat], where the program
    can return an infinity or zero, and a literal is the decimal it spells,
    where the program holds the nearest binary number.  The properties
    below that concern finite values are therefore stated only where the
    program's result cannot overflow (temperatures with an exponent at most
    zero, [Y] between 0 and 1), as relations between computed values that
    rounding preserves, or away from the thresholds of a comparison. *)

From Stdlib Require Import Reals Lra Lia ZArith QArith Qreals String Bool List.
Import ListNotations.

Set Implicit Arguments.

(** ** Failure *)

(** Python exceptions the modelled code can raise by itself. *)
Inductive error : Type :=
| IndexError        (* indexing an empty sequence *)
| ShapeError        (* element-wise operation on columns that do not broadcast *)
| TrainError.       (* the framework's training loop raised *)

Inductive result (A : Type) : Type :=
| Ok (a : A)
| Err (e : error).
Arguments Ok {A} a.
Arguments Err {A} e.

Definition bind {A B : Type} (m : result A) (f : A -> result B) : result B :=
  match m with
  | Ok a => f a
  | Err e => Err e
  end.

Declare Scope err_scope.
Delimit Scope err_scope with err.
Notation "x <- m ;; k" := (bind m (fun x => k))
  (at level 61, m at next level, right associativity) : err_scope.
Open Scope err_scope.

(** ** Arithmetic interface *)

(** The operations the script applies to numbers: literals, [+], [-], [*],
    [/], unary minus, [exp], and what [np.isclose] needs (absolute value,
    [<=], [==], [isfinite]). *)
Class Arith (F : Type) : Type := {
  lit : Q -> F;
  fadd : F -> F -> F;
  fsub : F -> F -> F;
  fmul : F -> F -> F;
  fdiv : F -> F -> F;
  fneg : F -> F;
  fexp : F -> F;
  fabs : F -> F;
  fleb : F -> F -> bool;
  feqb : F -> F -> bool;
  fisfinite : F -> bool
}.

Declare Scope arith_scope.
Delimit Scope arith_scope with ar.
Notation "a + b" := (fadd a b) : arith_scope.
Notation "a - b" := (fsub a b) : arith_scope.
Notation "a * b" := (fmul a b) : arith_scope.
Notation "a / b" := (fdiv a b) : arith_scope.
Notation "- a" := (fneg a) : arith_scope.

(** ** IEEE-754 special values over the reals *)

(** [Inf s] and [Zero s] carry the sign bit ([true] is negative).  [Fin r]
    stands for a finite non-zero number; [wf] states the side condition. *)
Inductive xfloat : Type :=
| NaN
| Inf (s : bool)
| Zero (s : bool)
| Fin (r : R).

Definition wf (a : xfloat) : Prop :=
  match a with
  | Fin r => r <> 0%R
  | _ => True
  end.

Definition Rltb (a b : R) : bool := if Rlt_dec a b then true else false.
Definition Rleb (a b : R) : bool := if Rle_dec a b then true else false.
Definition Reqb (a b : R) : bool := if Req_dec_T a b then true else false.

(** Sign bit of a value ([false] for NaN, which no rule below consults). *)
Definition sign (a : xfloat) : bool :=
  match a with
  | NaN => false
  | Inf s => s
  | Zero s => s
  | Fin r => Rltb r 0
  end.

(** A finite result of an exact operation; an exact zero sum is [+0]
    (round-to-nearest). *)
Definition fin (r : R) : xfloat :=
  if Reqb r 0 then Zero false else Fin r.

Definition xlit (q : Q) : xfloat :=
  if Qeq_bool q 0 then Zero false else Fin (Q2R q).

Definition xneg (a : xfloat) : xfloat :=
  match a with
  | NaN => NaN
  | Inf s => Inf (negb s)
  | Zero s => Zero (negb s)
  | Fin r => Fin (- r)
  end.

Definition xadd (a b : xfloat) : xfloat :=
  match a, b with
  | NaN, _ | _, NaN => NaN
  | Inf s, Inf t => if Bool.eqb s t then Inf s else NaN
  | Inf s, _ => Inf s
  | _, Inf t => Inf t
  | Zero s, Zero t => Zero (s && t)
  | Zero _, Fin r => Fin r
  | Fin r, Zero _ => Fin r
  | Fin r1, Fin r2 => fin (r1 + r2)
  end.

Definition xsub (a b : xfloat) : xfloat := xadd a (xneg b).

(** The product of two finite numbers is their exact product: no overflow
    to an infinity, no underflow to zero. *)
Definition xmul (a b : xfloat) : xfloat :=
  match a, b with
  | NaN, _ | _, NaN => NaN
  | Inf _, Zero _ | Zero _, Inf _ => NaN
  | Inf _, _ | _, Inf _ => Inf (xorb (sign a) (sign b))
  | Zero _, _ | _, Zero _ => Zero (xorb (sign a) (sign b))
  | Fin r1, Fin r2 => Fin (r1 * r2)
  end.

Definition xdiv (a b : xfloat) : xfloat :=
  match a, b with
  | NaN, _ | _, NaN => NaN
  | Inf _, Inf _ | Zero _, Zero _ => NaN
  | Inf _, _ => Inf (xorb (sign a) (sign b))
  | _, Inf _ => Zero (xorb (sign a) (sign b))
  | Zero _, Fin _ => Zero (xorb (sign a) (sign b))
  | Fin _, Zero _ => Inf (xorb (sign a) (sign b))
  | Fin r1, Fin r2 => Fin (r1 / r2)
  end.

(** The exponential of a finite number is its exact exponential: no
    overflow to [+inf] for a large argument, no underflow to zero for a
    very negative one. *)
Definition xexp (a : xfloat) : xfloat :=
  match a with
  | NaN => NaN
  | Inf false => Inf false
  | Inf true => Zero false
  | Zero _ => Fin 1
  | Fin r => Fin (exp r)
  end.

Definition xabs (a : xfloat) : xfloat :=
  match a with
  | NaN => NaN
  | Inf _ => Inf false
  | Zero _ => Zero false
  | Fin r => Fin (Rabs r)
  end.

(** The real number a finite value denotes. *)
Definition fval (a : xfloat) : option R :=
  match a with
  | Zero _ => Some 0%R
  | Fin r => Some r
  | _ => None
  end.

Definition xleb (a b : xfloat) : bool :=
  match a, b with
  | NaN, _ | _, NaN => false
  | Inf s, Inf t => implb t s
  | Inf s, _ => s
  | _, Inf t => negb t
  | Zero _, Zero _ => true
  | Zero _, Fin r => Rleb 0 r
  | Fin r, Zero _ => Rleb r 0
  | Fin r1, Fin r2 => Rleb r1 r2
  end.

Definition xeqb (a b : xfloat) : bool :=
  match a, b with
  | NaN, _ | _, NaN => false
  | Inf s, Inf t => Bool.eqb s t
  | Zero _, Zero _ => true
  | Zero _, Fin r => Reqb 0 r
  | Fin r, Zero _ => Reqb r 0
  | Fin r1, Fin r2 => Reqb r1 r2
  | _, _ => false
  end.

Definition xisfinite (a : xfloat) : bool :=
  match a with
  | Zero _ | Fin _ => true
  | _ => false
  end.

#[export] Instance xfloat_Arith : Arith xfloat := {
  lit := xlit;
  fadd := xadd;
  fsub := xsub;
  fmul := xmul;
  fdiv := xdiv;
  fneg := xneg;
  fexp := xexp;
  fabs := xabs;
  fleb := xleb;
  feqb := xeqb;
  fisfinite := xisfinite
}.

(** A value that compares equal to zero ([+0] or [-0]). *)
Definition is_zero (a : xfloat) : Prop :=
  match a with
  | Zero _ => True
  | _ => False
  end.

(** A temperature with a clear sign bit that is not NaN: [+0], a positive
    number or [+inf].  For these the exponent [-Ea / (R * temp)] is at most
    zero. *)
Definition nonneg_signed (a : xfloat) : Prop :=
  match a with
  | NaN => False
  | Inf s => s = false
  | Zero s => s = false
  | Fin r => (0 < r)%R
  end.

(** ** Module constants (lines 5-15 of the script) *)

Module Const.
Section Constants.
Context {F : Type} `{Arith F}.

Definition L : F := lit 1.0.        (* length of the combustion chamber *)
Definition T_final : F := lit 1.0.  (* final time *)

Definition u : F := lit 1.0.        (* advection velocity *)
Definition D : F := lit 0.01.       (* diffusion coefficient for species *)
Definition alpha : F := lit 0.01.   (* thermal diffusivity *)
Definition k : F := lit 10.0.       (* pre-exponential factor *)
Definition Ea : F := lit 50.0.      (* activation energy *)
Definition R : F := lit 1.0.        (* gas constant *)
Definition Q : F := lit 10.0.       (* heat release term *)
End Constants.
End Const.

(** ** Columns: the [N x 1] tensors of the residual function *)

Section Columns.
Context {F : Type} `{Arith F}.

Definition column : Type := list F.

(** A space-time point [[x, t]] as the one-dimensional array the framework
    hands to the predicates; a batch of points is a list of them. *)
Definition point : Type := list F.

(** The network output for a batch: one row [(Y, temp)] per point. *)
Definition outputs : Type := list (F * F).

(** [c * v] and [c / v] for a Python float [c] and a column [v]. *)
Definition scale (c : F) (v : column) : column := map (fmul c) v.
Definition sdiv (c : F) (v : column) : column := map (fdiv c) v.
Definition vexp (v : column) : column := map fexp v.

Definition zipw (f : F -> F -> F) (a b : column) : column :=
  map (fun p => f (fst p) (snd p)) (combine a b).

(** Element-wise binary operation on two columns with the broadcasting
    rule of the tensor library: a one-row column is repeated, otherwise
    the row counts must agree. *)
Definition ew2 (f : F -> F -> F) (a b : column) : result column :=
  match a, b with
  | [s], _ => Ok (map (f s) b)
  | _, [s] => Ok (map (fun v => f v s) a)
  | _, _ => if Nat.eqb (length a) (length b)
            then Ok (zipw f a b)
            else Err ShapeError
  end.

Definition vadd := ew2 fadd.
Definition vsub := ew2 fsub.
Definition vmul := ew2 fmul.

(** ** Automatic differentiation, supplied by the framework *)

(** [jacobian g y x i j] is the column of d y_i / d x_j over the batch;
    [hessian g y x c i j] the column of d^2 y_c / d x_i d x_j. *)
Record Grad : Type := {
  jacobian : outputs -> list point -> Z -> Z -> column;
  hessian : outputs -> list point -> Z -> Z -> Z -> column
}.

(** ** The residual function [pde] (lines 18-36) *)

(** Line 32: [k * Y * dde.math.exp(-Ea / (R * temp))]. *)
Definition reaction_rate (Y temp : column) : result column :=
  vmul (scale Const.k Y) (vexp (sdiv (- Const.Ea)%ar (scale Const.R temp))).

Definition pde (g : Grad) (x : list point) (y : outputs)
  : result (list column) :=
  let Y := map fst y in
  let temp := map snd y in
  let Y_t := jacobian g y x 0 1 in
  let Y_x := jacobian g y x 0 0 in
  let Y_xx := hessian g y x 0 0 0 in
  let T_t := jacobian g y x 1 1 in
  let T_x := jacobian g y x 1 0 in
  let T_xx := hessian g y x 1 0 0 in
  rr <- reaction_rate Y temp ;;
  eq_Y <- (a <- vadd Y_t (scale Const.u Y_x) ;;
           b <- vsub a (scale Const.D Y_xx) ;;
           vadd b rr) ;;
  eq_T <- (a <- vadd T_t (scale Const.u T_x) ;;
           b <- vsub a (scale Const.alpha T_xx) ;;
           vsub b (scale Const.Q rr)) ;;
  Ok [eq_Y; eq_T].

(** The residual at one point, written as the specification states it. *)
Definition arrhenius_factor (Temp : F) : F :=
  fexp (- Const.Ea / (Const.R * Temp))%ar.

Definition spec_reaction_rate (Y Temp : F) : F :=
  (Const.k * Y * arrhenius_factor Temp)%ar.

Definition spec_residual_Y (Y Temp dY_dt dY_dx d2Y_dx2 : F) : F :=
  (dY_dt + Const.u * dY_dx - Const.D * d2Y_dx2
   + spec_reaction_rate Y Temp)%ar.

Definition spec_residual_T (Y Temp dT_dt dT_dx d2T_dx2 : F) : F :=
  (dT_dt + Const.u * dT_dx - Const.alpha * d2T_dx2
   - Const.Q * spec_reaction_rate Y Temp)%ar.

(** The framework's contract on [Grad]: every derivative column has one
    row per batch row. *)
Definition grad_shaped (g : Grad) (x : list point) (y : outputs) : Prop :=
  forall i j c,
    length (jacobian g y x i j) = length y /\
    length (hessian g y x c i j) = length y.

(** The column computed on line 32, when [Y] and [temp] have as many rows. *)
Definition rr_column (Y temp : column) : column :=
  zipw fmul (scale Const.k Y)
       (vexp (sdiv (- Const.Ea)%ar (scale Const.R temp))).

(** The two columns [pde] returns when the derivative columns have one row
    per batch row. *)
Definition eq_Y_column (g : Grad) (x : list (point)) (y : outputs)
  : column :=
  zipw fadd
    (zipw fsub (zipw fadd (jacobian g y x 0 1)
                          (scale Const.u (jacobian g y x 0 0)))
               (scale Const.D (hessian g y x 0 0 0)))
    (rr_column (map fst y) (map snd y)).

Definition eq_T_column (g : Grad) (x : list (point)) (y : outputs)
  : column :=
  zipw fsub
    (zipw fsub (zipw fadd (jacobian g y x 1 1)
                          (scale Const.u (jacobian g y x 1 0)))
               (scale Const.alpha (hessian g y x 1 0 0)))
    (scale Const.Q (rr_column (map fst y) (map snd y))).

End Columns.

Arguments column F : clear implicits.
Arguments point F : clear implicits.
Arguments outputs F : clear implicits.
Arguments Grad F : clear implicits.

(** ** Initial conditions and boundary predicates (lines 39-54) *)

Section Conditions.
Context {F : Type} `{Arith F}.

(** What a target-value callback returns: a Python float, or an [N x 1]
    array. *)
Inductive target : Type :=
| Scalar (v : F)
| Column (c : column F).

(** [np.ones((len(x), 1))]. *)
Definition ones (n : nat) : column F := repeat (lit 1) n.

Definition init_cond_Y (x : list (point F)) : target := Column (ones (length x)).
Definition init_cond_T (x : list (point F)) : target := Column (ones (length x)).

(** [np.isclose(a, b)] on scalars with NumPy's default tolerances
    [rtol = 1e-05], [atol = 1e-08]:
    [abs(a - b) <= atol + rtol * abs(b)], with [b] finite, or [a == b].
    The tolerances are the decimals [1e-5] and [1e-8]; the program holds
    the nearest binary numbers, which differ from them in the last place. *)
Definition rtol : F := lit 1e-5.
Definition atol : F := lit 1e-8.

Definition isclose (a b : F) : bool :=
  (fleb (fabs (a - b)%ar) (atol + rtol * fabs b)%ar && fisfinite b)
  || feqb a b.

(** [x[0]]: indexing an empty array raises. *)
Definition index0 (x : point F) : result F :=
  match x with
  | [] => Err IndexError
  | x0 :: _ => Ok x0
  end.

(** [on_boundary and np.isclose(x[0], 0.0)]: Python's [and] evaluates its
    right operand only when the left one is true. *)
Definition boundary_left (x : point F) (on_boundary : bool) : result bool :=
  if on_boundary then (x0 <- index0 x ;; Ok (isclose x0 (lit 0.0)))
  else Ok false.

Definition boundary_right (x : point F) (on_boundary : bool) : result bool :=
  if on_boundary then (x0 <- index0 x ;; Ok (isclose x0 Const.L))
  else Ok false.

(** ** Framework objects built by [main] *)

(** [dde.geometry.Interval], [TimeDomain] and [GeometryXTime] store their
    arguments; none of them inspects the bounds. *)
Record Interval : Type := { interval_l : F; interval_r : F }.
Record TimeDomain : Type := { time_t0 : F; time_t1 : F }.
Record GeometryXTime : Type := {
  geometry : Interval;
  timedomain : TimeDomain
}.

(** [dde.DirichletBC(geom, func, on_boundary, component)] and
    [dde.IC(geom, func, on_initial, component)]. *)
Inductive ICBC : Type :=
| DirichletBC (geom : GeometryXTime) (func : list (point F) -> target)
    (on_boundary : point F -> bool -> result bool) (component : Z)
| IC (geom : GeometryXTime) (func : list (point F) -> target)
    (on_initial : point F -> bool -> result bool) (component : Z).

Definition icbc_func (c : ICBC) : list (point F) -> target :=
  match c with
  | DirichletBC _ f _ _ => f
  | IC _ f _ _ => f
  end.

Definition icbc_on (c : ICBC) : point F -> bool -> result bool :=
  match c with
  | DirichletBC _ _ p _ => p
  | IC _ _ p _ => p
  end.

Definition icbc_component (c : ICBC) : Z :=
  match c with
  | DirichletBC _ _ _ n => n
  | IC _ _ _ n => n
  end.

Definition is_IC (c : ICBC) : bool :=
  match c with
  | IC _ _ _ _ => true
  | DirichletBC _ _ _ _ => false
  end.

(** [dde.data.TimePDE(geomtime, pde, ic_bcs, num_domain=, num_boundary=,
    num_initial=, solution=, num_test=)]. *)
Record TimePDE : Type := {
  data_geomtime : GeometryXTime;
  data_pde : Grad F -> list (point F) -> outputs F -> result (list (column F));
  ic_bcs : list ICBC;
  num_domain : Z;
  num_boundary : Z;
  num_initial : Z;
  solution : option (list (point F) -> outputs F);
  num_test : Z
}.

(** [dde.nn.FNN(layer_sizes, activation, kernel_initializer)]. *)
Record FNN : Type := {
  layer_sizes : list Z;
  activation : string;
  kernel_initializer : string
}.

(** Lines 58-60, with the two module constants as arguments. *)
Definition make_geomtime (L T_final : F) : GeometryXTime :=
  let spatial_domain := {| interval_l := lit 0; interval_r := L |} in
  let temporal_domain := {| time_t0 := lit 0; time_t1 := T_final |} in
  {| geometry := spatial_domain; timedomain := temporal_domain |}.

(** Lines 63-69. *)
Definition bc_Y_left (geomtime : GeometryXTime) : ICBC :=
  DirichletBC geomtime (fun _ => Scalar (lit 1.0)) boundary_left 0.
Definition bc_Y_right (geomtime : GeometryXTime) : ICBC :=
  DirichletBC geomtime (fun _ => Scalar (lit 0.0)) boundary_right 0.
Definition bc_T_left (geomtime : GeometryXTime) : ICBC :=
  DirichletBC geomtime (fun _ => Scalar (lit 1.0)) boundary_left 1.
Definition bc_T_right (geomtime : GeometryXTime) : ICBC :=
  DirichletBC geomtime (fun _ => Scalar (lit 1.0)) boundary_right 1.

Definition ic_Y (geomtime : GeometryXTime) : ICBC :=
  IC geomtime init_cond_Y (fun _ on_initial => Ok on_initial) 0.
Definition ic_T (geomtime : GeometryXTime) : ICBC :=
  IC geomtime init_cond_T (fun _ on_initial => Ok on_initial) 1.

(** Lines 71-80. *)
Definition make_data (geomtime : GeometryXTime) : TimePDE :=
  {| data_geomtime := geomtime;
     data_pde := pde;
     ic_bcs := [ic_Y geomtime; ic_T geomtime;
                bc_Y_left geomtime; bc_Y_right geomtime;
                bc_T_left geomtime; bc_T_right geomtime];
     num_domain := 2540;
     num_boundary := 80;
     num_initial := 160;
     solution := None;
     num_test := 10000 |}.

(** Line 82: [[2] + [50] * 3 + [2]]. *)
Definition net : FNN :=
  {| layer_sizes := [2%Z] ++ repeat 50%Z 3 ++ [2%Z];
     activation := "tanh";
     kernel_initializer := "Glorot normal" |}.

(** ** Training and persistence (lines 84-88) *)

(** Callbacks of the framework that stop a run early or select a
    checkpoint; the script passes none. *)
Inductive callback : Type :=
| EarlyStopping
| ModelCheckpoint.

(** [dde.Model]: the data, the network, the optimiser set by [compile],
    the current parameters and the losses recorded by [train]. *)
Record Model (P : Type) : Type := {
  model_data : TimePDE;
  model_net : FNN;
  optimizer : option (string * F);
  params : P;
  losshistory : list F
}.

(** The framework's part of training: initial parameters for a network, and
    the optimisation loop, which may raise and otherwise returns the final
    parameters and the recorded losses, whatever they are. *)
Record Backend (P : Type) : Type := {
  initialize : FNN -> P;
  train_loop : Model P -> Z -> list callback -> result (P * list F)
}.

(** Checkpoints on durable storage: path given to [save], parameters. *)
Definition storage (P : Type) : Type := list (string * P).

Section Run.
Variable P : Type.
Variable be : Backend P.

Definition new_Model (data : TimePDE) (n : FNN) : Model P :=
  {| model_data := data; model_net := n; optimizer := None;
     params := initialize be n; losshistory := [] |}.

Definition compile (m : Model P) (name : string) (lr : F) : Model P :=
  {| model_data := model_data m; model_net := model_net m;
     optimizer := Some (name, lr);
     params := params m; losshistory := losshistory m |}.

(** The model after a training run that returned [out]: the parameters
    and the recorded losses are replaced. *)
Definition trained_model (m : Model P) (out : P * list F) : Model P :=
  {| model_data := model_data m; model_net := model_net m;
     optimizer := optimizer m;
     params := fst out; losshistory := snd out |}.

(** [model.train(iterations=n)]: no callbacks are passed. *)
Definition train (m : Model P) (iterations : Z) : result (Model P) :=
  out <- train_loop be m iterations [] ;;
  Ok (trained_model m out).

Definition save (m : Model P) (save_path : string) (fs : storage P)
  : storage P :=
  fs ++ [(save_path, params m)].

(** The model handed to [train]: built on line 84, compiled on line 85. *)
Definition compiled_model (L T_final : F) : Model P :=
  compile (new_Model (make_data (make_geomtime L T_final)) net)
          "adam" (lit 1e-3).

(** [main] (lines 57-88): the domain is built from the module constants
    [L] and [T_final]; the result is the trained model together with the
    storage after the run. *)
Definition main (fs : storage P) : result (Model P * storage P) :=
  let geomtime := make_geomtime Const.L Const.T_final in
  let data := make_data geomtime in
  let model := new_Model data net in
  let model := compile model "adam" (lit 1e-3) in
  model <- train model 5000 ;;
  Ok (model, save model "model_checkpoint" fs).

End Run.
End Conditions.

Arguments target F : clear implicits.
Arguments Interval F : clear implicits.
Arguments TimeDomain F : clear implicits.
Arguments GeometryXTime F : clear implicits.
Arguments ICBC F : clear implicits.
Arguments TimePDE F : clear implicits.
Arguments Model F P : clear implicits.
Arguments Backend F P : clear implicits.

(** ** Fixed-point squaring, used to bound the exponential *)

(** Numbers are integers scaled by [scale10 = 10^40]; [sq_floor] squares and
    rounds down, [sq_iter k] does so [k] times. *)
Definition scale10 : Z := 10 ^ 40.

Definition sq_floor (m : Z) : Z := (m * m / scale10)%Z.

Fixpoint sq_iter (k : nat) (m : Z) : Z :=
  match k with
  | O => m
  | S k' => sq_iter k' (sq_floor m)
  end.

(** [floor ((1 + c / 2^k) * 10^40)]. *)
Definition seed (c : Z) (k : nat) : Z :=
  ((2 ^ Z.of_nat k + c) * scale10 / 2 ^ Z.of_nat k)%Z.

(** The tolerance test on real numbers: a finite [a] whose value [v]
    satisfies [|v - c| <= 1e-8 + 1e-5 * |c|]. *)
Definition within_tol (a : xfloat) (c : R) : bool :=
  match fval a with
  | Some v => Rleb (Rabs (v - c)) (1e-8 + 1e-5 * Rabs c)
  | None => false
  end.

(** Every derivative the engine returns is zero. *)
Definition zero_derivatives (g : Grad xfloat) (x : list (point xfloat))
           (y : outputs xfloat) : Prop :=
  forall i j c,
    Forall is_zero (jacobian g y x i j) /\
    Forall is_zero (hessian g y x c i j).

(** ** Concrete framework services used to run the model *)

(** A differentiation engine that returns zero derivatives. *)
Definition zero_grad : Grad xfloat :=
  {| jacobian := fun y _ _ _ => map (fun _ => Zero false) y;
     hessian := fun y _ _ _ _ => map (fun _ => Zero false) y |}.

(** A training loop that returns the parameters it was given and records
    no loss. *)
Definition idle_backend : Backend xfloat unit :=
  {| initialize := fun _ => tt;
     train_loop := fun m _ _ => Ok (params m, []) |}.

(** A differentiation engine that breaks the shape contract: every column
    has three rows, whatever the batch. *)
Definition misshaped_grad : Grad xfloat :=
  {| jacobian := fun _ _ _ _ => [Zero false; Zero false; Zero false];
     hessian := fun _ _ _ _ _ => [Zero false; Zero false; Zero false] |}.

(** A training loop whose loss diverged: it returns, with NaN losses. *)
Definition diverged_backend : Backend xfloat unit :=
  {| initialize := fun _ => tt;
     train_loop := fun _ _ _ => Ok (tt, [NaN; NaN]) |}.

(** ** Vocabulary of the further properties *)

(** The target a condition sets for row [n] of a batch: a Python float
    applies to every row, an [N x 1] array gives its row [n]. *)
Definition target_at {F : Type} (t : target F) (n : nat) : option F :=
  match t with
  | Scalar v => Some v
  | Column c => nth_error c n
  end.

(** Equal as numbers: identical, or two zeros of either sign. *)
Definition same_value (a b : xfloat) : Prop :=
  a = b \/ (is_zero a /\ is_zero b).

(** * Properties *)

Unset Implicit Arguments.

(** ** Columns and the residual function, for any arithmetic *)

Section ColumnFacts.
Context {F : Type} `{Arith F}.

Lemma zipw_length (f : F -> F -> F) (a b : column F) :
  length a = length b -> length (zipw f a b) = length a.
Proof.
  intros E. unfold zipw.
  rewrite length_map, length_combine, <- E. apply Nat.min_id.
Qed.

Lemma zipw_nth (f : F -> F -> F) (a b : column F) (n : nat) (d : F) :
  length a = length b -> (n < length a)%nat ->
  nth n (zipw f a b) d = f (nth n a d) (nth n b d).
Proof.
  revert b n. induction a as [|a0 a IH]; intros [|b0 b] n E Hn;
    simpl in *; try lia; try discriminate.
  destruct n as [|n]; [reflexivity|].
  apply IH; lia.
Qed.

(** With equal row counts, broadcasting is the plain element-wise map. *)
Lemma ew2_same_length (f : F -> F -> F) (a b : column F) :
  length a = length b -> ew2 f a b = Ok (zipw f a b).
Proof.
  intros E. unfold ew2.
  destruct a as [|a0 [|a1 a]]; destruct b as [|b0 [|b1 b]];
    simpl in E; try discriminate; try reflexivity.
  injection E as E. simpl. rewrite E, Nat.eqb_refl. reflexivity.
Qed.

Lemma scale_length (c : F) (v : column F) : length (scale c v) = length v.
Proof. apply length_map. Qed.

Lemma scale_nth (c : F) (v : column F) (n : nat) (d : F) :
  (n < length v)%nat -> nth n (scale c v) d = (c * nth n v d)%ar.
Proof.
  intros Hn. unfold scale.
  rewrite (nth_indep _ d (c * d)%ar) by (rewrite length_map; exact Hn).
  apply (map_nth (fmul c)).
Qed.

Lemma sdiv_nth (c : F) (v : column F) (n : nat) (d : F) :
  (n < length v)%nat -> nth n (sdiv c v) d = (c / nth n v d)%ar.
Proof.
  intros Hn. unfold sdiv.
  rewrite (nth_indep _ d (c / d)%ar) by (rewrite length_map; exact Hn).
  apply (map_nth (fdiv c)).
Qed.

Lemma vexp_nth (v : column F) (n : nat) (d : F) :
  (n < length v)%nat -> nth n (vexp v) d = fexp (nth n v d).
Proof.
  intros Hn. unfold vexp.
  rewrite (nth_indep _ d (fexp d)) by (rewrite length_map; exact Hn).
  apply (map_nth fexp).
Qed.

Lemma reaction_rate_ok (Y temp : column F) :
  length Y = length temp -> reaction_rate Y temp = Ok (rr_column Y temp).
Proof.
  intros E. unfold reaction_rate, vmul. apply ew2_same_length.
  unfold vexp, sdiv, scale. rewrite !length_map. exact E.
Qed.

Lemma rr_column_length (Y temp : column F) :
  length Y = length temp -> length (rr_column Y temp) = length Y.
Proof.
  intros E. unfold rr_column. rewrite zipw_length.
  - apply scale_length.
  - unfold vexp, sdiv, scale. rewrite !length_map. exact E.
Qed.

Lemma rr_column_nth (Y temp : column F) (n : nat) (d : F) :
  length Y = length temp -> (n < length Y)%nat ->
  nth n (rr_column Y temp) d = spec_reaction_rate (nth n Y d) (nth n temp d).
Proof.
  intros E Hn. unfold rr_column, spec_reaction_rate.
  rewrite zipw_nth.
  - rewrite scale_nth by exact Hn.
    rewrite vexp_nth by (unfold sdiv, scale; rewrite !length_map; lia).
    rewrite sdiv_nth by (rewrite scale_length; lia).
    rewrite scale_nth by lia. reflexivity.
  - unfold vexp, sdiv, scale. rewrite !length_map. exact E.
  - rewrite scale_length. exact Hn.
Qed.

Lemma jacobian_rows (g : Grad F) (x : list (point F)) (y : outputs F) :
  grad_shaped g x y ->
  forall i j, length (jacobian g y x i j) = length y.
Proof. intros G i j. apply (G i j 0%Z). Qed.

Lemma hessian_rows (g : Grad F) (x : list (point F)) (y : outputs F) :
  grad_shaped g x y ->
  forall c i j, length (hessian g y x c i j) = length y.
Proof. intros G c i j. apply (G i j c). Qed.

(** Row counts of columns built from [zipw], [scale] and [map]. *)
Ltac col_len :=
  repeat first
    [ rewrite zipw_length | rewrite scale_length | rewrite rr_column_length
    | rewrite length_map ];
  try reflexivity; try lia.

Lemma pde_columns (g : Grad F) (x : list (point F)) (y : outputs F) :
  grad_shaped g x y ->
  pde g x y = Ok [eq_Y_column g x y; eq_T_column g x y].
Proof.
  intros G. unfold pde.
  pose proof (jacobian_rows g x y G) as J.
  pose proof (hessian_rows g x y G) as Hs.
  rewrite reaction_rate_ok by (rewrite !length_map; reflexivity).
  cbn [bind]. unfold vadd, vsub.
  rewrite (ew2_same_length fadd (jacobian g y x 0 1))
    by (rewrite scale_length, !J; reflexivity).
  cbn [bind].
  rewrite (ew2_same_length fsub) by (col_len; rewrite ?J, ?Hs; lia).
  cbn [bind].
  rewrite (ew2_same_length fadd) by (col_len; rewrite ?J, ?Hs; lia).
  cbn [bind].
  rewrite (ew2_same_length fadd (jacobian g y x 1 1))
    by (rewrite scale_length, !J; reflexivity).
  cbn [bind].
  rewrite (ew2_same_length fsub) by (col_len; rewrite ?J, ?Hs; lia).
  cbn [bind].
  rewrite (ew2_same_length fsub) by (col_len; rewrite ?J, ?Hs; lia).
  reflexivity.
Qed.

Lemma eq_Y_column_length (g : Grad F) (x : list (point F)) (y : outputs F) :
  grad_shaped g x y -> length (eq_Y_column g x y) = length y.
Proof.
  intros G. unfold eq_Y_column.
  pose proof (jacobian_rows g x y G) as J.
  pose proof (hessian_rows g x y G) as Hs.
  col_len; rewrite ?J, ?Hs; col_len.
Qed.

Lemma eq_T_column_length (g : Grad F) (x : list (point F)) (y : outputs F) :
  grad_shaped g x y -> length (eq_T_column g x y) = length y.
Proof.
  intros G. unfold eq_T_column.
  pose proof (jacobian_rows g x y G) as J.
  pose proof (hessian_rows g x y G) as Hs.
  col_len; rewrite ?J, ?Hs; col_len.
Qed.

(** Row [n] of the first returned column is the species residual of row [n]
    of the batch. *)
Lemma eq_Y_column_nth (g : Grad F) (x : list (point F)) (y : outputs F)
      (n : nat) (d : F) :
  grad_shaped g x y -> (n < length y)%nat ->
  nth n (eq_Y_column g x y) d =
  spec_residual_Y (nth n (map fst y) d) (nth n (map snd y) d)
    (nth n (jacobian g y x 0 1) d) (nth n (jacobian g y x 0 0) d)
    (nth n (hessian g y x 0 0 0) d).
Proof.
  intros G Hn. unfold eq_Y_column, spec_residual_Y.
  pose proof (jacobian_rows g x y G) as J.
  pose proof (hessian_rows g x y G) as Hs.
  rewrite zipw_nth; [| col_len; rewrite ?J, ?Hs; col_len ..].
  rewrite zipw_nth; [| col_len; rewrite ?J, ?Hs; col_len ..].
  rewrite zipw_nth; [| col_len; rewrite ?J, ?Hs; col_len ..].
  rewrite !scale_nth by (rewrite ?J, ?Hs; lia).
  rewrite rr_column_nth by (rewrite !length_map; lia).
  reflexivity.
Qed.

Lemma eq_T_column_nth (g : Grad F) (x : list (point F)) (y : outputs F)
      (n : nat) (d : F) :
  grad_shaped g x y -> (n < length y)%nat ->
  nth n (eq_T_column g x y) d =
  spec_residual_T (nth n (map fst y) d) (nth n (map snd y) d)
    (nth n (jacobian g y x 1 1) d) (nth n (jacobian g y x 1 0) d)
    (nth n (hessian g y x 1 0 0) d).
Proof.
  intros G Hn. unfold eq_T_column, spec_residual_T.
  pose proof (jacobian_rows g x y G) as J.
  pose proof (hessian_rows g x y G) as Hs.
  rewrite zipw_nth; [| col_len; rewrite ?J, ?Hs; col_len ..].
  rewrite zipw_nth; [| col_len; rewrite ?J, ?Hs; col_len ..].
  rewrite zipw_nth; [| col_len; rewrite ?J, ?Hs; col_len ..].
  rewrite !scale_nth
    by (rewrite ?J, ?Hs, ?rr_column_length; rewrite ?length_map; lia).
  rewrite rr_column_nth by (rewrite !length_map; lia).
  reflexivity.
Qed.

(** C1.  For every batch [y] and every differentiation engine whose columns
    have one row per batch row, [pde] returns exactly two columns, each with
    one row per batch row, and at every row
    residual_Y = dY/dt + u * dY/dx - D * d2Y/dx2 + reaction_rate and
    residual_T = dT/dt + u * dT/dx - alpha * d2T/dx2 - Q * reaction_rate,
    with reaction_rate = k * Y * exp (- Ea / (R * Temp)). *)
Theorem pde_residual_formula (g : Grad F) (x : list (point F)) (y : outputs F) :
  grad_shaped g x y ->
  exists eq_Y eq_T : column F,
    pde g x y = Ok [eq_Y; eq_T] /\
    length eq_Y = length y /\
    length eq_T = length y /\
    forall (n : nat) (d : F), (n < length y)%nat ->
      nth n eq_Y d =
        spec_residual_Y (nth n (map fst y) d) (nth n (map snd y) d)
          (nth n (jacobian g y x 0 1) d) (nth n (jacobian g y x 0 0) d)
          (nth n (hessian g y x 0 0 0) d) /\
      nth n eq_T d =
        spec_residual_T (nth n (map fst y) d) (nth n (map snd y) d)
          (nth n (jacobian g y x 1 1) d) (nth n (jacobian g y x 1 0) d)
          (nth n (hessian g y x 1 0 0) d).
Proof.
  intros G.
  exists (eq_Y_column g x y), (eq_T_column g x y).
  split; [apply pde_columns; exact G|].
  split; [apply eq_Y_column_length; exact G|].
  split; [apply eq_T_column_length; exact G|].
  intros n d Hn. split.
  - apply eq_Y_column_nth; assumption.
  - apply eq_T_column_nth; assumption.
Qed.

End ColumnFacts.

(** The residual theorem on a two-row batch with zero derivatives. *)
Lemma pde_residual_formula_witness :
  grad_shaped zero_grad [[Zero false; Zero false]; [Fin 1; Fin 1]]
              [(Fin 1, Fin 1); (Zero false, Fin 2)] /\
  exists eq_Y eq_T : column xfloat,
    pde zero_grad [[Zero false; Zero false]; [Fin 1; Fin 1]]
        [(Fin 1, Fin 1); (Zero false, Fin 2)] = Ok [eq_Y; eq_T] /\
    length eq_Y = 2%nat /\ length eq_T = 2%nat.
Proof.
  assert (G : grad_shaped zero_grad [[Zero false; Zero false]; [Fin 1; Fin 1]]
                          [(Fin 1, Fin 1); (Zero false, Fin 2)])
    by (intros i j c; split; reflexivity).
  split; [exact G|].
  destruct (pde_residual_formula zero_grad _ _ G) as (a & b & E & La & Lb & _).
  exists a, b. repeat split; assumption.
Defined.

(** ** The arithmetic of [xfloat] *)

Local Open Scope R_scope.

Lemma Rltb_true (a b : R) : a < b -> Rltb a b = true.
Proof.
  intros Hlt. unfold Rltb.
  destruct (Rlt_dec a b); [reflexivity|contradiction].
Qed.

Lemma Rltb_false (a b : R) : b <= a -> Rltb a b = false.
Proof.
  intros Hle. unfold Rltb. destruct (Rlt_dec a b); [lra|reflexivity].
Qed.

Lemma Rleb_iff (a b : R) : Rleb a b = true <-> a <= b.
Proof.
  unfold Rleb. destruct (Rle_dec a b); split; intros; try assumption;
    try reflexivity; try discriminate; contradiction.
Qed.

Lemma Rleb_true (a b : R) : a <= b -> Rleb a b = true.
Proof. apply Rleb_iff. Qed.

Lemma Rleb_false (a b : R) : b < a -> Rleb a b = false.
Proof.
  intros Hlt. unfold Rleb. destruct (Rle_dec a b); [lra|reflexivity].
Qed.

Lemma Reqb_true (a b : R) : a = b -> Reqb a b = true.
Proof.
  intros E. unfold Reqb.
  destruct (Req_dec_T a b); [reflexivity|contradiction].
Qed.

Lemma Reqb_false (a b : R) : a <> b -> Reqb a b = false.
Proof.
  intros E. unfold Reqb.
  destruct (Req_dec_T a b); [contradiction|reflexivity].
Qed.

(** Settles the comparisons of real constants left by the operations. *)
Ltac decide_reals :=
  repeat first
    [ rewrite Rltb_true by lra | rewrite Rltb_false by lra
    | rewrite Rleb_true by lra | rewrite Rleb_false by lra
    | rewrite Reqb_true by lra | rewrite Reqb_false by lra ].

Lemma fin_nonzero (r : R) : r <> 0 -> fin r = Fin r.
Proof. intros Hr. unfold fin. rewrite Reqb_false by exact Hr. reflexivity. Qed.

(** A non-zero literal is the finite number it denotes. *)
Lemma xlit_nonzero (q : Q) : Qeq_bool q 0 = false -> xlit q = Fin (Q2R q).
Proof. intros E. unfold xlit. rewrite E. reflexivity. Qed.

Ltac lit_value :=
  cbn [lit xfloat_Arith]; rewrite xlit_nonzero by reflexivity;
  f_equal; try (unfold Q2R; simpl; lra).

(** The module constants as [xfloat] values. *)
Lemma L_val : Const.L (F := xfloat) = Fin 1.
Proof. unfold Const.L. lit_value. Qed.

Lemma T_final_val : Const.T_final (F := xfloat) = Fin 1.
Proof. unfold Const.T_final. lit_value. Qed.

Lemma u_val : Const.u (F := xfloat) = Fin 1.
Proof. unfold Const.u. lit_value. Qed.

Lemma D_val : Const.D (F := xfloat) = Fin 0.01.
Proof. unfold Const.D. lit_value. Qed.

Lemma alpha_val : Const.alpha (F := xfloat) = Fin 0.01.
Proof. unfold Const.alpha. lit_value. Qed.

Lemma k_val : Const.k (F := xfloat) = Fin 10.
Proof. unfold Const.k. lit_value. Qed.

Lemma Ea_val : Const.Ea (F := xfloat) = Fin 50.
Proof. unfold Const.Ea. lit_value. Qed.

Lemma R_val : Const.R (F := xfloat) = Fin 1.
Proof. unfold Const.R. lit_value. Qed.

Lemma Q_val : Const.Q (F := xfloat) = Fin 10.
Proof. unfold Const.Q. lit_value. Qed.

Lemma rtol_val : rtol (F := xfloat) = Fin 1e-5.
Proof. unfold rtol. lit_value. Qed.

Lemma atol_val : atol (F := xfloat) = Fin 1e-8.
Proof. unfold atol. lit_value. Qed.

(** Products and sums of zeros. *)
Lemma xmul_fin_zero (r : R) (a : xfloat) :
  is_zero a -> is_zero (xmul (Fin r) a).
Proof. destruct a; simpl; tauto. Qed.

Lemma xadd_zero_zero (a b : xfloat) :
  is_zero a -> is_zero b -> is_zero (xadd a b).
Proof. destruct a, b; simpl; tauto. Qed.

Lemma xsub_zero_zero (a b : xfloat) :
  is_zero a -> is_zero b -> is_zero (xsub a b).
Proof. destruct a, b; simpl; tauto. Qed.

Lemma xmul_zero_finite (a b : xfloat) :
  is_zero a -> xisfinite b = true -> is_zero (xmul a b).
Proof. destruct a, b; simpl; intros; try tauto; discriminate. Qed.

(** The Arrhenius factor [exp (- Ea / (R * temp))] is a finite number when
    [temp] has a clear sign bit: at [+0.0] the exponent is [-inf] and the
    factor is [0], at [+inf] the exponent is [-0.0] and the factor is [1]. *)
Lemma arrhenius_factor_nonneg_signed (temp : xfloat) :
  nonneg_signed temp -> xisfinite (arrhenius_factor temp) = true.
Proof.
  unfold arrhenius_factor.
  cbn [fexp fdiv fneg fmul xfloat_Arith]. rewrite Ea_val, R_val. intros Ht.
  destruct temp as [|s|s|r]; simpl in Ht; try contradiction; subst; simpl;
    decide_reals; reflexivity.
Qed.

(** The reaction rate is zero when [Y] is zero and [temp] has a clear sign
    bit. *)
Lemma reaction_rate_zero (Y temp : xfloat) :
  is_zero Y -> nonneg_signed temp -> is_zero (spec_reaction_rate Y temp).
Proof.
  intros HY Ht. unfold spec_reaction_rate. cbn [fmul xfloat_Arith].
  apply xmul_zero_finite; [|apply arrhenius_factor_nonneg_signed; exact Ht].
  rewrite k_val. apply xmul_fin_zero. exact HY.
Qed.

Lemma residual_Y_zero (Y temp a b c : xfloat) :
  is_zero Y -> nonneg_signed temp -> is_zero a -> is_zero b -> is_zero c ->
  is_zero (spec_residual_Y Y temp a b c).
Proof.
  intros HY Ht Ha Hb Hc. unfold spec_residual_Y.
  cbn [fadd fsub fmul xfloat_Arith]. rewrite u_val, D_val.
  apply xadd_zero_zero; [|apply reaction_rate_zero; assumption].
  apply xsub_zero_zero; [|apply xmul_fin_zero; assumption].
  apply xadd_zero_zero; [assumption|apply xmul_fin_zero; assumption].
Qed.

Lemma residual_T_zero (Y temp a b c : xfloat) :
  is_zero Y -> nonneg_signed temp -> is_zero a -> is_zero b -> is_zero c ->
  is_zero (spec_residual_T Y temp a b c).
Proof.
  intros HY Ht Ha Hb Hc. unfold spec_residual_T.
  cbn [fadd fsub fmul xfloat_Arith]. rewrite u_val, alpha_val, Q_val.
  apply xsub_zero_zero;
    [|apply xmul_fin_zero; apply reaction_rate_zero; assumption].
  apply xsub_zero_zero; [|apply xmul_fin_zero; assumption].
  apply xadd_zero_zero; [assumption|apply xmul_fin_zero; assumption].
Qed.

(** ** Sanity of the [xfloat] model *)

(** Literals and operations produce well-formed values from well-formed
    values: [Fin] never holds zero. *)
Lemma fin_wf (r : R) : wf (fin r).
Proof.
  unfold fin, Reqb. destruct (Req_dec_T r 0); simpl; [exact I|assumption].
Qed.

Lemma xlit_wf (q : Q) : wf (xlit q).
Proof.
  unfold xlit. destruct (Qeq_bool q 0) eqn:E; simpl; [exact I|].
  intros H0. apply Qeq_bool_neq in E. apply E.
  apply eqR_Qeq. rewrite H0. unfold Q2R. simpl. lra.
Qed.

Lemma xneg_wf (a : xfloat) : wf a -> wf (xneg a).
Proof. destruct a; simpl; try (intros; exact I). intros Hr. lra. Qed.

Lemma xabs_wf (a : xfloat) : wf a -> wf (xabs a).
Proof. destruct a; simpl; try (intros; exact I). apply Rabs_no_R0. Qed.

Lemma xexp_wf (a : xfloat) : wf (xexp a).
Proof.
  destruct a as [|[|]|s|r]; simpl; try exact I; try lra.
  pose proof (exp_pos r). lra.
Qed.

Lemma xadd_wf (a b : xfloat) : wf a -> wf b -> wf (xadd a b).
Proof.
  destruct a as [|s|s|r], b as [|t|t|r']; simpl; intros Ha Hb;
    try exact I; try assumption;
    try (destruct (Bool.eqb s t); exact I).
  apply fin_wf.
Qed.

Lemma xsub_wf (a b : xfloat) : wf a -> wf b -> wf (xsub a b).
Proof. intros Ha Hb. apply xadd_wf; [exact Ha|apply xneg_wf; exact Hb]. Qed.

Lemma xmul_wf (a b : xfloat) : wf a -> wf b -> wf (xmul a b).
Proof.
  destruct a, b; simpl; try (intros; exact I).
  intros Ha Hb. apply Rmult_integral_contrapositive_currified; assumption.
Qed.

Lemma xdiv_wf (a b : xfloat) : wf a -> wf b -> wf (xdiv a b).
Proof.
  destruct a, b; simpl; try (intros; exact I).
  intros Ha Hb. unfold Rdiv.
  apply Rmult_integral_contrapositive_currified;
    [assumption|apply Rinv_neq_0_compat; assumption].
Qed.

(** The special cases the residual meets. *)
Example div_by_positive_zero : xdiv (Fin (-50)) (Zero false) = Inf true.
Proof. simpl. decide_reals. reflexivity. Qed.

Example div_by_negative_zero : xdiv (Fin (-50)) (Zero true) = Inf false.
Proof. simpl. decide_reals. reflexivity. Qed.

Example exp_of_infinities :
  xexp (Inf true) = Zero false /\ xexp (Inf false) = Inf false.
Proof. split; reflexivity. Qed.

Example zero_times_infinity : xmul (Zero false) (Inf false) = NaN.
Proof. reflexivity. Qed.

(** The predicates on an empty point: the flag is read first. *)
Example boundary_left_empty_point :
  boundary_left (F := xfloat) [] true = Err IndexError /\
  boundary_left (F := xfloat) [] false = Ok false.
Proof. split; reflexivity. Qed.

(** A column of three rows does not broadcast against a batch of two. *)
Example pde_shape_mismatch :
  pde misshaped_grad [[Fin 1; Fin 1]; [Fin 1; Fin 1]]
      [(Fin 1, Fin 1); (Fin 1, Fin 1)] = Err ShapeError.
Proof.
  unfold pde, reaction_rate, vmul, vadd, vsub, scale, sdiv, vexp.
  reflexivity.
Qed.

(** ** The residual at zero input *)

(** With [Y = +0.0] and [Temp = -0.0] the divisor [R * temp] is [-0.0], the
    exponent [-Ea / -0.0] is [+inf], its exponential is [+inf], and
    [0.0 * inf] is NaN: both residuals are NaN although [Y], [Temp] and all
    derivatives are zero. *)
Lemma residual_nan_at_negative_zero_temp :
  arrhenius_factor (Zero true) = Inf false /\
  reaction_rate [Zero false] [Zero true] = Ok [NaN] /\
  pde zero_grad [[Zero false; Zero false]] [(Zero false, Zero true)]
  = Ok [[NaN]; [NaN]].
Proof.
  unfold pde, reaction_rate, arrhenius_factor, vmul, vadd, vsub, scale,
    sdiv, vexp.
  rewrite k_val, Ea_val, R_val, u_val, D_val, alpha_val, Q_val.
  simpl. decide_reals. simpl. repeat split; reflexivity.
Qed.

(** C5 (amended).  When [Y] is zero and [Temp] is [+0.0], positive or
    [+inf] at every row, the reaction-rate column is zero at every row; if
    in addition all six derivative columns are zero, [pde] returns two
    columns that are zero at every row.  For these temperatures the
    exponent [- Ea / (R * Temp)] is at most zero, so the exponential lies
    between 0 and 1 and cannot overflow; negative temperatures are not
    covered. *)
Theorem zero_input_zero_residual :
  (forall Y temp : column xfloat,
      length Y = length temp ->
      Forall is_zero Y -> Forall nonneg_signed temp ->
      exists rr, reaction_rate Y temp = Ok rr /\
                 length rr = length Y /\ Forall is_zero rr) /\
  (forall (g : Grad xfloat) (x : list (point xfloat)) (y : outputs xfloat),
      grad_shaped g x y -> zero_derivatives g x y ->
      Forall is_zero (map fst y) -> Forall nonneg_signed (map snd y) ->
      exists eq_Y eq_T,
        pde g x y = Ok [eq_Y; eq_T] /\
        length eq_Y = length y /\ length eq_T = length y /\
        Forall is_zero eq_Y /\ Forall is_zero eq_T).
Proof.
  split.
  - intros Y temp E HY Ht. exists (rr_column Y temp).
    split; [apply reaction_rate_ok; exact E|].
    split; [apply rr_column_length; exact E|].
    apply Forall_nth. intros n d Hn.
    rewrite rr_column_length in Hn by exact E.
    rewrite rr_column_nth by assumption.
    apply reaction_rate_zero.
    + apply Forall_nth; assumption.
    + apply Forall_nth; [assumption|lia].
  - intros g x y G Z HY Ht.
    exists (eq_Y_column g x y), (eq_T_column g x y).
    pose proof (jacobian_rows g x y G) as J.
    pose proof (hessian_rows g x y G) as Hs.
    assert (ZJ : forall i j n d, (n < length y)%nat ->
                                 is_zero (nth n (jacobian g y x i j) d)).
    { intros i j n d Hn. apply Forall_nth; [apply (Z i j 0%Z)|].
      rewrite J. exact Hn. }
    assert (ZH : forall c i j n d, (n < length y)%nat ->
                                   is_zero (nth n (hessian g y x c i j) d)).
    { intros c i j n d Hn. apply Forall_nth; [apply (Z i j c)|].
      rewrite Hs. exact Hn. }
    split; [apply pde_columns; exact G|].
    split; [apply eq_Y_column_length; exact G|].
    split; [apply eq_T_column_length; exact G|].
    split; apply Forall_nth; intros n d Hn.
    + rewrite eq_Y_column_length in Hn by exact G.
      rewrite eq_Y_column_nth by assumption.
      apply residual_Y_zero; auto;
        apply Forall_nth; try assumption; rewrite length_map; exact Hn.
    + rewrite eq_T_column_length in Hn by exact G.
      rewrite eq_T_column_nth by assumption.
      apply residual_T_zero; auto;
        apply Forall_nth; try assumption; rewrite length_map; exact Hn.
Qed.

(** The theorem at the all-zero point with [Temp = +0.0]. *)
Lemma zero_input_zero_residual_witness :
  exists eq_Y eq_T,
    pde zero_grad [[Zero false; Zero false]] [(Zero false, Zero false)]
    = Ok [eq_Y; eq_T] /\
    length eq_Y = 1%nat /\ length eq_T = 1%nat /\
    Forall is_zero eq_Y /\ Forall is_zero eq_T.
Proof.
  apply (proj2 zero_input_zero_residual).
  - intros i j c. split; reflexivity.
  - intros i j c. split; repeat constructor.
  - repeat constructor.
  - repeat constructor.
Defined.

(** ** Bounds on the exponential by repeated squaring *)

Lemma scale10_pos : (0 < scale10)%Z.
Proof. reflexivity. Qed.

Lemma IZR_scale10_pos : 0 < IZR scale10.
Proof. apply IZR_lt, scale10_pos. Qed.

(** One squaring step keeps a lower bound: from [m / 10^40 <= exp x] to
    [sq_floor m / 10^40 <= exp (2 x)]. *)
Lemma sq_floor_bound (m : Z) (x : R) :
  (0 <= m)%Z -> IZR m / IZR scale10 <= exp x ->
  (0 <= sq_floor m)%Z /\ IZR (sq_floor m) / IZR scale10 <= exp (2 * x).
Proof.
  intros Hm Hx. pose proof scale10_pos as HS. pose proof IZR_scale10_pos as HR.
  unfold sq_floor. split.
  - apply Z.div_pos; [apply Z.mul_nonneg_nonneg; assumption|exact HS].
  - assert (Hq : (scale10 * (m * m / scale10) <= m * m)%Z)
      by (apply Z.mul_div_le; exact HS).
    apply IZR_le in Hq. rewrite !mult_IZR in Hq.
    set (q := IZR (m * m / scale10)) in *.
    assert (Hm' : 0 <= IZR m) by (apply IZR_le; exact Hm).
    assert (H0 : 0 <= IZR m / IZR scale10)
      by (apply Rmult_le_pos; [exact Hm'|left; apply Rinv_0_lt_compat; exact HR]).
    replace (2 * x) with (x + x) by ring. rewrite exp_plus.
    apply Rle_trans with (IZR m / IZR scale10 * (IZR m / IZR scale10)).
    + apply Rmult_le_reg_r with (IZR scale10); [exact HR|].
      unfold Rdiv. field_simplify; [|lra ..].
      apply Rmult_le_reg_r with (IZR scale10); [exact HR|].
      unfold Rdiv. field_simplify; [|lra ..]. nra.
    + apply Rmult_le_compat; assumption.
Qed.

Lemma sq_iter_bound (k : nat) :
  forall (m : Z) (x : R),
    (0 <= m)%Z -> IZR m / IZR scale10 <= exp x ->
    IZR (sq_iter k m) / IZR scale10 <= exp (2 ^ k * x).
Proof.
  induction k as [|k IH]; intros m x Hm Hx.
  - simpl. rewrite Rmult_1_l. exact Hx.
  - destruct (sq_floor_bound m x Hm Hx) as [Hm' Hx'].
    simpl sq_iter. replace (2 ^ S k * x) with (2 ^ k * (2 * x)) by (simpl; ring).
    apply IH; assumption.
Qed.

(** The seed is below [1 + c / 2^k], hence below [exp (c / 2^k)]. *)
Lemma seed_bound (c : Z) (k : nat) :
  (0 <= 2 ^ Z.of_nat k + c)%Z ->
  (0 <= seed c k)%Z /\ IZR (seed c k) / IZR scale10 <= exp (IZR c / 2 ^ k).
Proof.
  intros Hc. pose proof scale10_pos as HS. pose proof IZR_scale10_pos as HR.
  assert (Hp : (0 < 2 ^ Z.of_nat k)%Z) by (apply Z.pow_pos_nonneg; lia).
  assert (Hp' : 0 < 2 ^ k) by (apply pow_lt; lra).
  unfold seed. split.
  - apply Z.div_pos; [apply Z.mul_nonneg_nonneg; lia|exact Hp].
  - apply Rle_trans with (1 + IZR c / 2 ^ k); [|apply exp_ineq1_le].
    assert (Hq : (2 ^ Z.of_nat k *
                  ((2 ^ Z.of_nat k + c) * scale10 / 2 ^ Z.of_nat k)
                  <= (2 ^ Z.of_nat k + c) * scale10)%Z)
      by (apply Z.mul_div_le; exact Hp).
    apply IZR_le in Hq. rewrite !mult_IZR, plus_IZR, <- pow_IZR in Hq.
    set (q := IZR ((2 ^ Z.of_nat k + c) * scale10 / 2 ^ Z.of_nat k)) in *.
    apply Rmult_le_reg_r with (IZR scale10 * 2 ^ k);
      [apply Rmult_lt_0_compat; assumption|].
    replace (q / IZR scale10 * (IZR scale10 * 2 ^ k)) with (2 ^ k * q)
      by (field; lra).
    replace ((1 + IZR c / 2 ^ k) * (IZR scale10 * 2 ^ k))
      with ((2 ^ k + IZR c) * IZR scale10) by (field; lra).
    exact Hq.
Qed.

(** [(1 + c / 2^k)^(2^k)], rounded down at every squaring, is below
    [exp c]. *)
Lemma exp_lower_bound (c : Z) (k : nat) :
  (0 <= 2 ^ Z.of_nat k + c)%Z ->
  IZR (sq_iter k (seed c k)) / IZR scale10 <= exp (IZR c).
Proof.
  intros Hc. destruct (seed_bound c k Hc) as [H0 H1].
  assert (Hp' : 0 < 2 ^ k) by (apply pow_lt; lra).
  replace (exp (IZR c)) with (exp (2 ^ k * (IZR c / 2 ^ k)))
    by (f_equal; field; lra).
  apply sq_iter_bound; assumption.
Qed.

Lemma exp_minus_50_bounds : 1.9287e-22 < exp (-50) < 1.9288e-22.
Proof.
  split.
  - pose proof (exp_lower_bound (-50) 26 ltac:(vm_compute; discriminate)) as Hb.
    replace (sq_iter 26 (seed (-50) 26)) with 1928713922515172371%Z in Hb
      by (vm_compute; reflexivity).
    change scale10 with 10000000000000000000000000000000000000000%Z in Hb.
    lra.
  - pose proof (exp_lower_bound 50 26 ltac:(vm_compute; discriminate)) as Hb.
    replace (sq_iter 26 (seed 50 26))
      with 51846089568684070250182423696219720889889705596325979767421665%Z
      in Hb by (vm_compute; reflexivity).
    change scale10 with 10000000000000000000000000000000000000000%Z in Hb.
    replace (-50) with (- (50)) by lra. rewrite exp_Ropp.
    pose proof (exp_pos 50) as Hpos.
    apply Rmult_lt_reg_r with (exp 50); [exact Hpos|].
    rewrite Rinv_l by lra. lra.
Qed.

(** ** The regression value of the reaction rate *)

(** Line 32 at [Y = 1], [temp = 1]. *)
Lemma reaction_rate_at_one :
  reaction_rate [Fin 1] [Fin 1] = Ok [Fin (10 * 1 * exp (-50))].
Proof.
  unfold reaction_rate, vmul, scale, sdiv, vexp.
  rewrite k_val, Ea_val, R_val. simpl.
  replace (- (50) / (1 * 1)) with (-50) by field.
  reflexivity.
Qed.

(** The value is ten times smaller than [1.93e-20]: it is below [2e-21]. *)
Lemma reaction_rate_value_not_1_93e_20 :
  exists v : R,
    reaction_rate [Fin 1] [Fin 1] = Ok [Fin v] /\
    v < 2e-21 /\ ~ (1.925e-20 <= v <= 1.935e-20).
Proof.
  exists (10 * 1 * exp (-50)). split; [exact reaction_rate_at_one|].
  pose proof exp_minus_50_bounds as [_ Hu]. split; lra.
Qed.

(** C2 (amended).  With [k = 10.0], [Ea = 50.0], [R = 1.0], the reaction rate
    at [Y = 1], [Temp = 1] is [10 * 1 * exp (-50)], which is [1.93e-21] to
    three significant digits; the value involves no network and no
    derivative. *)
Theorem reaction_rate_regression_value :
  reaction_rate [Fin 1] [Fin 1] = Ok [Fin (10 * 1 * exp (-50))] /\
  1.928e-21 < 10 * 1 * exp (-50) < 1.929e-21.
Proof.
  split; [exact reaction_rate_at_one|].
  pose proof exp_minus_50_bounds as [Hl Hu]. split; lra.
Qed.

(** ** The boundary predicates *)

Lemma lit_zero_val : lit (F := xfloat) 0.0 = Zero false.
Proof. reflexivity. Qed.

Lemma Rleb_ext (a b c d : R) : (a <= b <-> c <= d) -> Rleb a b = Rleb c d.
Proof. intros E. apply eq_true_iff_eq. rewrite !Rleb_iff. exact E. Qed.

(** [np.isclose(a, 0.0)] is the tolerance test around [0]. *)
Lemma isclose_zero (a : xfloat) : isclose a (lit 0.0) = within_tol a 0.
Proof.
  unfold isclose, within_tol. rewrite lit_zero_val, rtol_val, atol_val.
  cbn [fleb fabs fsub fadd fmul fisfinite feqb xfloat_Arith].
  destruct a as [|s|s|r]; simpl; decide_reals; simpl.
  - reflexivity.
  - destruct s; reflexivity.
  - symmetry. apply Rleb_true. rewrite Rminus_diag, Rabs_R0. lra.
  - rewrite andb_true_r.
    replace (r - 0) with r by ring. rewrite Rabs_R0.
    replace (1e-8 + 1e-5 * 0) with 1e-8 by lra.
    destruct (Req_dec_T r 0) as [E|E].
    + subst. rewrite Rabs_R0. rewrite Rleb_true by lra. reflexivity.
    + rewrite (Reqb_false r 0 E). apply orb_false_r.
Qed.

(** [np.isclose(a, L)] is the tolerance test around [1]. *)
Lemma isclose_L (a : xfloat) : isclose a Const.L = within_tol a 1.
Proof.
  unfold isclose, within_tol. rewrite L_val, rtol_val, atol_val.
  cbn [fleb fabs fsub fadd fmul fisfinite feqb xfloat_Arith].
  assert (T : xadd (Fin 1e-8) (xmul (Fin 1e-5) (xabs (Fin 1)))
              = Fin (1e-8 + 1e-5 * Rabs 1)).
  { simpl. apply fin_nonzero. rewrite Rabs_R1. lra. }
  rewrite T. clear T.
  destruct a as [|s|s|r]; simpl.
  - reflexivity.
  - destruct s; reflexivity.
  - rewrite andb_true_r. rewrite (Reqb_false 0 1) by lra. rewrite orb_false_r.
    apply Rleb_ext. replace (0 - 1) with (-1) by lra. tauto.
  - unfold fin. destruct (Req_dec_T r 1) as [E|E].
    + subst. decide_reals. rewrite orb_true_r.
      symmetry. apply Rleb_true. rewrite Rminus_diag, Rabs_R0, Rabs_R1. lra.
    + rewrite Reqb_false by (intro; apply E; lra). simpl.
      rewrite (Reqb_false r 1 E). rewrite andb_true_r, orb_false_r.
      reflexivity.
Qed.

Lemma boundary_left_cons (x0 : xfloat) (rest : point xfloat) (ob : bool) :
  boundary_left (x0 :: rest) ob = Ok (ob && within_tol x0 0).
Proof.
  unfold boundary_left. destruct ob; [|reflexivity].
  simpl. rewrite isclose_zero. reflexivity.
Qed.

Lemma boundary_right_cons (x0 : xfloat) (rest : point xfloat) (ob : bool) :
  boundary_right (x0 :: rest) ob = Ok (ob && within_tol x0 1).
Proof.
  unfold boundary_right. destruct ob; [|reflexivity].
  simpl. rewrite isclose_L. reflexivity.
Qed.

(** No number is within tolerance of both [0] and [1]. *)
Lemma within_tol_disjoint (a : xfloat) :
  within_tol a 0 = true -> within_tol a 1 = true -> False.
Proof.
  unfold within_tol. destruct (fval a) as [v|]; [|discriminate].
  rewrite !Rleb_iff. rewrite Rabs_R0, Rabs_R1. intros H0 H1.
  unfold Rabs in H0, H1.
  destruct (Rcase_abs (v - 0)), (Rcase_abs (v - 1)); lra.
Qed.

(** C6.  On a point with a first coordinate, each predicate is the
    conjunction of the supplied [on_boundary] flag and the tolerance test
    [|x - c| <= 1e-8 + 1e-5 * |c|] against [c = 0.0] (left) or [c = L = 1.0]
    (right); the test is not equality: each predicate accepts a point whose
    coordinate differs from its target. *)
Theorem boundary_predicates_use_tolerance :
  (forall (x0 : xfloat) (rest : point xfloat) (on_boundary : bool),
      boundary_left (x0 :: rest) on_boundary
      = Ok (on_boundary && within_tol x0 0) /\
      boundary_right (x0 :: rest) on_boundary
      = Ok (on_boundary && within_tol x0 1)) /\
  (boundary_left [Fin 5e-9; Zero false] true = Ok true /\
   feqb (Fin 5e-9) (lit 0.0) = false) /\
  (boundary_right [Fin 1.00001; Zero false] true = Ok true /\
   feqb (Fin 1.00001) Const.L = false).
Proof.
  split; [|split].
  - intros x0 rest ob. split.
    + apply boundary_left_cons.
    + apply boundary_right_cons.
  - split.
    + rewrite boundary_left_cons. unfold within_tol. simpl.
      rewrite Rleb_true; [reflexivity|].
      rewrite Rabs_R0. rewrite Rabs_pos_eq by lra. lra.
    + rewrite lit_zero_val. simpl. apply Reqb_false. lra.
  - split.
    + rewrite boundary_right_cons. unfold within_tol. simpl.
      rewrite Rleb_true; [reflexivity|].
      rewrite Rabs_R1. rewrite Rabs_pos_eq by lra. lra.
    + rewrite L_val. simpl. apply Reqb_false. lra.
Qed.

(** C10.  With [L = 1.0] and the default tolerances, no point and flag
    satisfy both predicates, so the conditions [Y = 1] at the left and
    [Y = 0] at the right never select the same point; and with
    [on_boundary] false both predicates return false. *)
Theorem boundary_predicates_disjoint :
  (forall (x : point xfloat) (on_boundary : bool),
      ~ (boundary_left x on_boundary = Ok true /\
         boundary_right x on_boundary = Ok true)) /\
  (forall (gt : GeometryXTime xfloat) (x : point xfloat) (on_boundary : bool),
      ~ (icbc_on (bc_Y_left gt) x on_boundary = Ok true /\
         icbc_on (bc_Y_right gt) x on_boundary = Ok true)) /\
  (forall x : point xfloat,
      boundary_left x false = Ok false /\ boundary_right x false = Ok false).
Proof.
  assert (D : forall (x : point xfloat) (ob : bool),
             ~ (boundary_left x ob = Ok true /\ boundary_right x ob = Ok true)).
  { intros [|x0 rest] ob [Hl Hr].
    - destruct ob; discriminate.
    - rewrite boundary_left_cons in Hl. rewrite boundary_right_cons in Hr.
      injection Hl as Hl. injection Hr as Hr.
      apply andb_true_iff in Hl. apply andb_true_iff in Hr.
      apply (within_tol_disjoint x0); tauto. }
  split; [exact D|]. split.
  - intros gt x ob. simpl. apply D.
  - intros x. split; reflexivity.
Qed.

(** ** The six conditions *)

Lemma lit_one_val : lit (F := xfloat) 1.0 = Fin 1.
Proof. lit_value. Qed.

Lemma ones_val (n : nat) : ones (F := xfloat) n = repeat (Fin 1) n.
Proof. unfold ones. f_equal. lit_value. Qed.

(** C3.  The six conditions, in the order [main] lists them, are two
    initial conditions and four Dirichlet conditions.  For every batch [X]
    the initial targets are a column of ones, for component 0 (Y) and
    component 1 (Temp); the left-boundary targets are 1.0 for components 0
    and 1; the right-boundary targets are 0.0 for component 0 and 1.0 for
    component 1.  The initial conditions select the points flagged as
    initial, the others the points selected by [boundary_left] and
    [boundary_right]. *)
Theorem conditions_targets_and_components
        (gt : GeometryXTime xfloat) (X : list (point xfloat))
        (p : point xfloat) (flag : bool) :
  map (fun c => (is_IC c, icbc_component c, icbc_func c X))
      (ic_bcs (make_data gt))
  = [ (true, 0%Z, Column (repeat (Fin 1) (length X)));
      (true, 1%Z, Column (repeat (Fin 1) (length X)));
      (false, 0%Z, Scalar (Fin 1));
      (false, 0%Z, Scalar (Zero false));
      (false, 1%Z, Scalar (Fin 1));
      (false, 1%Z, Scalar (Fin 1)) ] /\
  map (fun c => icbc_on c p flag) (ic_bcs (make_data gt))
  = [ Ok flag; Ok flag;
      boundary_left p flag; boundary_right p flag;
      boundary_left p flag; boundary_right p flag ].
Proof.
  split.
  - cbn [make_data ic_bcs map ic_Y ic_T bc_Y_left bc_Y_right bc_T_left
         bc_T_right is_IC icbc_component icbc_func].
    unfold init_cond_Y, init_cond_T.
    rewrite ones_val, lit_one_val, lit_zero_val. reflexivity.
  - reflexivity.
Qed.

(** ** The run: assembly, network, training, checkpoint *)

Section RunFacts.
Variable P : Type.
Variable be : Backend xfloat P.

(** [main] is one call of the training loop, with 5000 iterations and no
    callback, followed by [save]. *)
Lemma main_unfold (fs : storage P) :
  main be fs =
  (out <- train_loop be (compiled_model be Const.L Const.T_final) 5000 [] ;;
   let m := trained_model (compiled_model be Const.L Const.T_final) out in
   Ok (m, fs ++ [("model_checkpoint"%string, params m)])).
Proof.
  unfold main, train, compiled_model.
  destruct (train_loop be _ 5000 []) as [out|e]; reflexivity.
Qed.

Lemma main_ok (fs : storage P) (out : P * list xfloat) :
  train_loop be (compiled_model be Const.L Const.T_final) 5000 [] = Ok out ->
  main be fs =
  Ok (trained_model (compiled_model be Const.L Const.T_final) out,
      fs ++ [("model_checkpoint"%string, fst out)]).
Proof. intros E. rewrite main_unfold, E. reflexivity. Qed.

Lemma main_inv (fs fs' : storage P) (m : Model xfloat P) :
  main be fs = Ok (m, fs') ->
  exists out,
    train_loop be (compiled_model be Const.L Const.T_final) 5000 [] = Ok out /\
    m = trained_model (compiled_model be Const.L Const.T_final) out /\
    fs' = fs ++ [("model_checkpoint"%string, fst out)].
Proof.
  rewrite main_unfold.
  destruct (train_loop be _ 5000 []) as [out|e]; simpl; intros E;
    [|discriminate].
  injection E as E1 E2. exists out. repeat split; congruence.
Qed.

End RunFacts.

(** C7.  The data set descriptor of a completed run holds the space-time
    domain, the residual function [pde] and exactly the six conditions, and
    asks for 2540 interior, 80 boundary, 160 initial and 10000 test points;
    no reference solution is supplied. *)
Theorem problem_assembly_counts
        (P : Type) (be : Backend xfloat P) (fs fs' : storage P)
        (m : Model xfloat P) :
  main be fs = Ok (m, fs') ->
  let gt := make_geomtime Const.L Const.T_final in
  data_geomtime (model_data m) = gt /\
  data_pde (model_data m) = pde /\
  ic_bcs (model_data m)
  = [ic_Y gt; ic_T gt; bc_Y_left gt; bc_Y_right gt; bc_T_left gt; bc_T_right gt] /\
  length (ic_bcs (model_data m)) = 6%nat /\
  num_domain (model_data m) = 2540%Z /\
  num_boundary (model_data m) = 80%Z /\
  num_initial (model_data m) = 160%Z /\
  num_test (model_data m) = 10000%Z /\
  solution (model_data m) = None.
Proof.
  intros E gt. apply main_inv in E. destruct E as [out [_ [-> _]]].
  subst gt. cbn [trained_model compiled_model compile new_Model model_data].
  repeat split.
Qed.

(** The theorem on a run whose training returned. *)
Lemma problem_assembly_counts_witness :
  num_domain (model_data (trained_model
     (compiled_model idle_backend Const.L Const.T_final) (tt, [])))
  = 2540%Z.
Proof.
  refine (proj1 (proj2 (proj2 (proj2 (proj2
    (problem_assembly_counts unit idle_backend [] _ _ _)))))).
  reflexivity.
Defined.

Lemma lit_lr_val : lit (F := xfloat) 1e-3 = Fin 1e-3.
Proof. lit_value. Qed.

(** C8.  The network of a completed run has layer sizes
    [2; 50; 50; 50; 2]: input dimension 2, output dimension 2 and exactly
    three hidden layers of width 50, with activation "tanh" and initializer
    "Glorot normal".  It is compiled with optimizer "adam" at learning rate
    [1e-3], and its parameters and losses are those returned by the one call
    of the training loop, made with 5000 iterations and no callback. *)
Theorem network_and_training_configuration
        (P : Type) (be : Backend xfloat P) (fs fs' : storage P)
        (m : Model xfloat P) :
  main be fs = Ok (m, fs') ->
  layer_sizes (model_net m) = [2; 50; 50; 50; 2]%Z /\
  hd 0%Z (layer_sizes (model_net m)) = 2%Z /\
  last (layer_sizes (model_net m)) 0%Z = 2%Z /\
  removelast (tl (layer_sizes (model_net m))) = repeat 50%Z 3 /\
  activation (model_net m) = "tanh"%string /\
  kernel_initializer (model_net m) = "Glorot normal"%string /\
  optimizer m = Some ("adam"%string, Fin 1e-3) /\
  optimizer (compiled_model be Const.L Const.T_final)
  = Some ("adam"%string, Fin 1e-3) /\
  train_loop be (compiled_model be Const.L Const.T_final) 5000 []
  = Ok (params m, losshistory m).
Proof.
  intros E. apply main_inv in E. destruct E as [out [Ht [-> _]]].
  cbn [trained_model compiled_model compile new_Model model_net optimizer
       params losshistory net layer_sizes activation kernel_initializer].
  rewrite lit_lr_val.
  repeat split. rewrite Ht. destruct out; reflexivity.
Qed.

(** The theorem on a run whose training returned. *)
Lemma network_and_training_configuration_witness :
  layer_sizes (model_net (trained_model
     (compiled_model idle_backend Const.L Const.T_final) (tt, [])))
  = [2; 50; 50; 50; 2]%Z.
Proof.
  refine (proj1
    (network_and_training_configuration unit idle_backend [] _ _ _)).
  reflexivity.
Defined.

(** C9.  Whenever the training loop returns, whatever parameters and
    losses it returns, [main] appends exactly one checkpoint, named
    "model_checkpoint" and holding the returned parameters, to the storage;
    the losses are not consulted. *)
Theorem checkpoint_saved_unconditionally
        (P : Type) (be : Backend xfloat P) (fs : storage P)
        (p : P) (losses : list xfloat) :
  train_loop be (compiled_model be Const.L Const.T_final) 5000 []
  = Ok (p, losses) ->
  exists m : Model xfloat P,
    main be fs = Ok (m, fs ++ [("model_checkpoint"%string, p)]) /\
    params m = p /\ losshistory m = losses.
Proof.
  intros E.
  exists (trained_model (compiled_model be Const.L Const.T_final) (p, losses)).
  split; [|split; reflexivity].
  rewrite (main_ok P be fs _ E). reflexivity.
Qed.

(** The theorem on a run whose losses are NaN: the checkpoint is written. *)
Lemma checkpoint_saved_unconditionally_witness :
  exists m : Model xfloat unit,
    main diverged_backend [] = Ok (m, [("model_checkpoint"%string, tt)]) /\
    params m = tt /\ losshistory m = [NaN; NaN].
Proof.
  apply (checkpoint_saved_unconditionally unit diverged_backend [] tt
           [NaN; NaN]).
  reflexivity.
Defined.

(** * Further properties of the script *)

(** ** The boundary predicates at their edges *)

Section PredicateErrors.
Context {F : Type} `{Arith F}.


End PredicateErrors.

(** X2.  A coordinate that is NaN or infinite is on neither boundary, and
    this is an answer, not an error; the exact targets are on their
    boundary: both zeros on the left, [L] on the right. *)
Theorem boundary_predicates_at_special_coordinates :
  (forall (x0 : xfloat) (rest : point xfloat) (on_boundary : bool),
      xisfinite x0 = false ->
      boundary_left (x0 :: rest) on_boundary = Ok false /\
      boundary_right (x0 :: rest) on_boundary = Ok false) /\
  (forall (s : bool) (rest : point xfloat),
      boundary_left (Zero s :: rest) true = Ok true /\
      boundary_right (Zero s :: rest) true = Ok false) /\
  (forall rest : point xfloat,
      boundary_right (Const.L :: rest) true = Ok true /\
      boundary_left (Const.L :: rest) true = Ok false).
Proof.
  split; [|split].
  - intros x0 rest ob Hx.
    rewrite boundary_left_cons, boundary_right_cons. unfold within_tol.
    destruct x0; try discriminate; simpl; rewrite andb_false_r; auto.
  - intros s rest.
    rewrite boundary_left_cons, boundary_right_cons. unfold within_tol. simpl.
    rewrite Rleb_true, Rleb_false; [auto| |].
    + rewrite Rabs_R1. replace (0 - 1) with (- (1)) by ring.
      rewrite Rabs_Ropp, Rabs_R1. lra.
    + rewrite Rminus_diag, Rabs_R0. lra.
  - intros rest.
    rewrite boundary_left_cons, boundary_right_cons, L_val.
    unfold within_tol. simpl.
    rewrite Rleb_true, Rleb_false; [auto| |].
    + rewrite Rabs_R0. replace (1 - 0) with 1 by ring. rewrite Rabs_R1. lra.
    + rewrite Rminus_diag, Rabs_R0, Rabs_R1. lra.
Qed.

(** The first part of the theorem at a NaN coordinate. *)
Lemma boundary_predicates_at_special_coordinates_witness :
  boundary_left [NaN; Zero false] true = Ok false /\
  boundary_right [NaN; Zero false] true = Ok false.
Proof.
  apply (proj1 boundary_predicates_at_special_coordinates). reflexivity.
Defined.

(** ** The corner of the domain at [x = L], [t = 0] *)

(** X3.  A point flagged both as initial and as boundary whose first
    coordinate is within tolerance of [L] is selected by the initial
    condition on Y and by the right boundary condition on Y; both constrain
    component 0, the first with target 1 and the second with target 0. *)
Theorem initial_and_right_conditions_conflict
        (gt : GeometryXTime xfloat) (x0 : xfloat) (rest : point xfloat) :
  within_tol x0 1 = true ->
  icbc_on (ic_Y gt) (x0 :: rest) true = Ok true /\
  icbc_on (bc_Y_right gt) (x0 :: rest) true = Ok true /\
  icbc_component (ic_Y gt) = icbc_component (bc_Y_right gt) /\
  target_at (icbc_func (ic_Y gt) [x0 :: rest]) 0 = Some (Fin 1) /\
  target_at (icbc_func (bc_Y_right gt) [x0 :: rest]) 0 = Some (Zero false).
Proof.
  intros Hx.
  cbn [ic_Y bc_Y_right icbc_on icbc_component icbc_func].
  rewrite boundary_right_cons, Hx.
  unfold init_cond_Y. rewrite ones_val, lit_zero_val.
  repeat split.
Qed.

(** The theorem at the corner [(L, 0)] itself. *)
Lemma initial_and_right_conditions_conflict_witness :
  icbc_on (ic_Y (make_geomtime Const.L Const.T_final))
          [Fin 1; Zero false] true = Ok true /\
  icbc_on (bc_Y_right (make_geomtime Const.L Const.T_final))
          [Fin 1; Zero false] true = Ok true.
Proof.
  assert (Hx : within_tol (Fin 1) 1 = true).
  { unfold within_tol. simpl. apply Rleb_true.
    rewrite Rminus_diag, Rabs_R0, Rabs_R1. lra. }
  destruct (initial_and_right_conditions_conflict
              (make_geomtime Const.L Const.T_final) (Fin 1) [Zero false] Hx)
    as (A & B & _).
  split; assumption.
Defined.

(** ** NaN in the inputs of the residual *)

Lemma xadd_nan_r (a : xfloat) : xadd a NaN = NaN.
Proof. destruct a; reflexivity. Qed.

Lemma xsub_nan_r (a : xfloat) : xsub a NaN = NaN.
Proof. unfold xsub. simpl. apply xadd_nan_r. Qed.

Lemma xmul_nan_r (a : xfloat) : xmul a NaN = NaN.
Proof. destruct a; reflexivity. Qed.

(** A NaN in [Y] or in [Temp] makes the reaction rate NaN. *)
Lemma reaction_rate_nan (Y temp : xfloat) :
  Y = NaN \/ temp = NaN -> spec_reaction_rate Y temp = NaN.
Proof.
  unfold spec_reaction_rate, arrhenius_factor.
  cbn [fmul fexp fdiv fneg xfloat_Arith].
  intros [-> | ->].
  - rewrite xmul_nan_r. reflexivity.
  - rewrite R_val, Ea_val. simpl. apply xmul_nan_r.
Qed.

Lemma residual_Y_nan (Y temp a b c : xfloat) :
  Y = NaN \/ temp = NaN \/ a = NaN \/ b = NaN \/ c = NaN ->
  spec_residual_Y Y temp a b c = NaN.
Proof.
  unfold spec_residual_Y. cbn [fadd fsub fmul xfloat_Arith].
  intros [E | [E | [E | [E | E]]]].
  - rewrite reaction_rate_nan by auto. apply xadd_nan_r.
  - rewrite reaction_rate_nan by auto. apply xadd_nan_r.
  - subst a. reflexivity.
  - subst b. rewrite xmul_nan_r, xadd_nan_r. reflexivity.
  - subst c. rewrite xmul_nan_r, xsub_nan_r. reflexivity.
Qed.

Lemma residual_T_nan (Y temp a b c : xfloat) :
  Y = NaN \/ temp = NaN \/ a = NaN \/ b = NaN \/ c = NaN ->
  spec_residual_T Y temp a b c = NaN.
Proof.
  unfold spec_residual_T. cbn [fadd fsub fmul xfloat_Arith].
  intros [E | [E | [E | [E | E]]]].
  - rewrite reaction_rate_nan by auto. rewrite xmul_nan_r. apply xsub_nan_r.
  - rewrite reaction_rate_nan by auto. rewrite xmul_nan_r. apply xsub_nan_r.
  - subst a. reflexivity.
  - subst b. rewrite xmul_nan_r, xadd_nan_r. reflexivity.
  - subst c. rewrite xmul_nan_r, xsub_nan_r. reflexivity.
Qed.

(** X4.  [pde] never masks a NaN: at a row where [Y], [Temp] or one of the
    three derivatives of Y is NaN the first residual is NaN, and at a row
    where [Y], [Temp] or one of the three derivatives of Temp is NaN the
    second residual is NaN. *)
Theorem pde_propagates_nan
        (g : Grad xfloat) (x : list (point xfloat)) (y : outputs xfloat)
        (n : nat) (d : xfloat) :
  grad_shaped g x y -> (n < length y)%nat ->
  exists eq_Y eq_T : column xfloat,
    pde g x y = Ok [eq_Y; eq_T] /\
    (nth n (map fst y) d = NaN \/ nth n (map snd y) d = NaN \/
     nth n (jacobian g y x 0 1) d = NaN \/
     nth n (jacobian g y x 0 0) d = NaN \/
     nth n (hessian g y x 0 0 0) d = NaN ->
     nth n eq_Y d = NaN) /\
    (nth n (map fst y) d = NaN \/ nth n (map snd y) d = NaN \/
     nth n (jacobian g y x 1 1) d = NaN \/
     nth n (jacobian g y x 1 0) d = NaN \/
     nth n (hessian g y x 1 0 0) d = NaN ->
     nth n eq_T d = NaN).
Proof.
  intros G Hn.
  exists (eq_Y_column g x y), (eq_T_column g x y).
  split; [apply pde_columns; exact G|]. split; intros E.
  - rewrite eq_Y_column_nth by assumption. apply residual_Y_nan. exact E.
  - rewrite eq_T_column_nth by assumption. apply residual_T_nan. exact E.
Qed.

(** The theorem on a one-row batch whose temperature is NaN. *)
Lemma pde_propagates_nan_witness :
  exists eq_Y eq_T : column xfloat,
    pde zero_grad [[Fin 1; Zero false]] [(Fin 1, NaN)] = Ok [eq_Y; eq_T] /\
    nth 0 eq_Y (Zero false) = NaN /\ nth 0 eq_T (Zero false) = NaN.
Proof.
  destruct (pde_propagates_nan zero_grad [[Fin 1; Zero false]] [(Fin 1, NaN)]
              0 (Zero false)) as (a & b & E & HY & HT).
  - intros i j c. split; reflexivity.
  - simpl. lia.
  - exists a, b. split; [exact E|]. split.
    + apply HY. right. left. reflexivity.
    + apply HT. right. left. reflexivity.
Defined.

(** ** The reaction rate at positive temperature *)

(** At a positive finite temperature the Arrhenius factor is the
    exponential of a negative number. *)
Lemma arrhenius_factor_positive_temp (T : R) :
  arrhenius_factor (Fin T) = Fin (exp (- (50) / (1 * T))).
Proof.
  unfold arrhenius_factor. cbn [fexp fdiv fneg fmul xfloat_Arith].
  rewrite Ea_val, R_val. reflexivity.
Qed.

Lemma exp_negative_le_1 (x : R) : x <= 0 -> 0 < exp x <= 1.
Proof.
  intros Hx. split; [apply exp_pos|].
  destruct Hx as [Hx|Hx].
  - left. rewrite <- exp_0. apply exp_increasing. exact Hx.
  - subst. rewrite exp_0. lra.
Qed.

Lemma arrhenius_exponent_neg (T : R) : 0 < T -> - (50) / (1 * T) <= 0.
Proof.
  intros HT. unfold Rdiv.
  assert (0 < / (1 * T)) by (apply Rinv_0_lt_compat; lra). nra.
Qed.

(** X5.  For a finite [Y] between 0 and 1 and a finite [Temp > 0] at every
    row, the reaction rate is at every row a finite number, at least [0.0]
    and at most the product [k * Y] the code computes: the exponent is
    negative, so the exponential lies between 0 and 1. *)
Theorem reaction_rate_bounded_by_kY (Y temp : column xfloat) :
  length Y = length temp ->
  (forall (n : nat) (d : xfloat), (n < length Y)%nat ->
     exists yv tv : R,
       fval (nth n Y d) = Some yv /\ 0 <= yv <= 1 /\
       nth n temp d = Fin tv /\ 0 < tv) ->
  exists rr : column xfloat,
    reaction_rate Y temp = Ok rr /\ length rr = length Y /\
    forall (n : nat) (d : xfloat), (n < length Y)%nat ->
      fisfinite (nth n rr d) = true /\
      fleb (lit 0.0) (nth n rr d) = true /\
      fleb (nth n rr d) (Const.k * nth n Y d)%ar = true.
Proof.
  intros E Hin. exists (rr_column Y temp).
  split; [apply reaction_rate_ok; exact E|].
  split; [apply rr_column_length; exact E|].
  intros n d Hn. destruct (Hin n d Hn) as (yv & tv & HY & Hy & HT & Ht0).
  rewrite rr_column_nth by assumption. rewrite HT.
  pose proof (exp_negative_le_1 _ (arrhenius_exponent_neg tv Ht0)) as [Hp Hl].
  unfold spec_reaction_rate. rewrite arrhenius_factor_positive_temp.
  rewrite lit_zero_val. cbn [fmul fleb fisfinite xfloat_Arith]. rewrite k_val.
  destruct (nth n Y d) as [| |s|r]; simpl in HY; try discriminate;
    injection HY as <-; simpl; [repeat split|].
  split; [reflexivity|]. split; apply Rleb_true; nra.
Qed.

(** The theorem on a two-row batch. *)
Lemma reaction_rate_bounded_by_kY_witness :
  exists rr : column xfloat,
    reaction_rate [Fin 1; Zero false] [Fin 2; Fin 3] = Ok rr /\
    length rr = 2%nat.
Proof.
  destruct (reaction_rate_bounded_by_kY [Fin 1; Zero false] [Fin 2; Fin 3])
    as (rr & E & Hl & _).
  - reflexivity.
  - intros n d Hn. destruct n as [|[|n]]; simpl in *.
    + exists 1, 2. repeat split; lra.
    + exists 0, 3. repeat split; lra.
    + lia.
  - exists rr. split; assumption.
Defined.

(** ** The residual of a uniform steady state *)

Lemma xadd_zero_l_value (z r : xfloat) : is_zero z -> same_value (xadd z r) r.
Proof.
  unfold same_value. destruct z, r; simpl; try tauto; intros _; auto.
Qed.

Lemma transport_terms_zero (a b c : xfloat) (v w : R) :
  is_zero a -> is_zero b -> is_zero c ->
  is_zero (xsub (xadd a (xmul (Fin v) b)) (xmul (Fin w) c)).
Proof.
  intros Ha Hb Hc.
  apply xsub_zero_zero; [|apply xmul_fin_zero; exact Hc].
  apply xadd_zero_zero; [exact Ha|apply xmul_fin_zero; exact Hb].
Qed.

Lemma residual_Y_steady (Y temp a b c : xfloat) :
  is_zero a -> is_zero b -> is_zero c ->
  same_value (spec_residual_Y Y temp a b c) (spec_reaction_rate Y temp).
Proof.
  intros Ha Hb Hc. unfold spec_residual_Y.
  cbn [fadd fsub fmul xfloat_Arith]. rewrite u_val, D_val.
  apply xadd_zero_l_value. apply transport_terms_zero; assumption.
Qed.

Lemma residual_T_steady (Y temp a b c : xfloat) :
  is_zero a -> is_zero b -> is_zero c ->
  same_value (spec_residual_T Y temp a b c)
             (xneg (xmul Const.Q (spec_reaction_rate Y temp))).
Proof.
  intros Ha Hb Hc. unfold spec_residual_T.
  cbn [fadd fsub fmul xfloat_Arith]. rewrite u_val, alpha_val.
  unfold xsub at 1.
  apply xadd_zero_l_value. apply transport_terms_zero; assumption.
Qed.

(** X7.  When all six derivative columns are zero, the transport terms
    vanish: at every row the first residual has the value of the reaction
    rate and the second the value of [- (Q * reaction_rate)], whatever [Y]
    and [Temp] are (NaN and infinities included). *)
Theorem steady_state_residuals
        (g : Grad xfloat) (x : list (point xfloat)) (y : outputs xfloat) :
  grad_shaped g x y -> zero_derivatives g x y ->
  exists rr eq_Y eq_T : column xfloat,
    reaction_rate (map fst y) (map snd y) = Ok rr /\
    pde g x y = Ok [eq_Y; eq_T] /\
    forall (n : nat) (d : xfloat), (n < length y)%nat ->
      same_value (nth n eq_Y d) (nth n rr d) /\
      same_value (nth n eq_T d) (xneg (xmul Const.Q (nth n rr d))).
Proof.
  intros G Z.
  exists (rr_column (map fst y) (map snd y)),
         (eq_Y_column g x y), (eq_T_column g x y).
  pose proof (jacobian_rows g x y G) as J.
  pose proof (hessian_rows g x y G) as Hs.
  split; [apply reaction_rate_ok; rewrite !length_map; reflexivity|].
  split; [apply pde_columns; exact G|].
  intros n d Hn.
  assert (ZJ : forall i j, is_zero (nth n (jacobian g y x i j) d)).
  { intros i j. apply Forall_nth; [apply (Z i j 0%Z)|]. rewrite J. exact Hn. }
  assert (ZH : forall c i j, is_zero (nth n (hessian g y x c i j) d)).
  { intros c i j. apply Forall_nth; [apply (Z i j c)|]. rewrite Hs. exact Hn. }
  rewrite eq_Y_column_nth, eq_T_column_nth by assumption.
  rewrite rr_column_nth by (rewrite !length_map; lia).
  split.
  - apply residual_Y_steady; auto.
  - apply residual_T_steady; auto.
Qed.

(** The theorem on a one-row batch with [Y = 1], [Temp = 1]. *)
Lemma steady_state_residuals_witness :
  exists rr eq_Y eq_T : column xfloat,
    reaction_rate [Fin 1] [Fin 1] = Ok rr /\
    pde zero_grad [[Zero false; Zero false]] [(Fin 1, Fin 1)]
    = Ok [eq_Y; eq_T] /\
    same_value (nth 0 eq_Y NaN) (nth 0 rr NaN).
Proof.
  destruct (steady_state_residuals zero_grad [[Zero false; Zero false]]
              [(Fin 1, Fin 1)]) as (rr & a & b & A & B & C).
  - intros i j c. split; reflexivity.
  - intros i j c. split; repeat constructor.
  - exists rr, a, b. split; [exact A|]. split; [exact B|].
    apply (C 0%nat NaN). simpl. lia.
Defined.

(** ** Tolerances of the two boundaries *)

(** X8.  The two boundaries are matched with different tolerances: a
    coordinate at distance [d] from its target, with [2e-8 <= d <= 1e-5],
    is rejected on the left and accepted on the right, on either side of
    [L].  The range stays clear of the two thresholds, [1e-8] on the left
    and [1e-8 + 1e-5] on the right. *)
Theorem boundary_tolerances_differ (d : R) (rest : point xfloat) :
  2e-8 <= d <= 1e-5 ->
  boundary_left (Fin d :: rest) true = Ok false /\
  boundary_left (Fin (- d) :: rest) true = Ok false /\
  boundary_right (Fin (1 + d) :: rest) true = Ok true /\
  boundary_right (Fin (1 - d) :: rest) true = Ok true.
Proof.
  intros [Hl Hu].
  rewrite !boundary_left_cons, !boundary_right_cons. unfold within_tol.
  cbn [fval andb]. rewrite Rabs_R0, Rabs_R1.
  replace (d - 0) with d by ring. replace (- d - 0) with (- d) by ring.
  replace (1 + d - 1) with d by ring. replace (1 - d - 1) with (- d) by ring.
  rewrite Rabs_Ropp, (Rabs_pos_eq d) by lra.
  rewrite Rleb_false by lra. rewrite Rleb_true by lra.
  repeat split.
Qed.

(** The theorem at distance [1e-6]. *)
Lemma boundary_tolerances_differ_witness :
  boundary_left [Fin 1e-6; Zero false] true = Ok false /\
  boundary_right [Fin (1 + 1e-6); Zero false] true = Ok true.
Proof.
  destruct (boundary_tolerances_differ 1e-6 [Zero false]) as (A & _ & B & _).
  - lra.
  - split; assumption.
Defined.

(** ** The reaction rate at negative temperature *)

(** X9.  At a negative finite temperature the Arrhenius factor is at least
    1, so for finite [Y > 0] the reaction rate is at least [k * Y]: the
    term grows instead of decaying. *)
Theorem reaction_rate_at_negative_temperature (yv tv : R) :
  0 < yv -> tv < 0 ->
  exists rr : xfloat,
    reaction_rate [Fin yv] [Fin tv] = Ok [rr] /\
    fleb (Const.k * Fin yv)%ar rr = true /\
    fleb (lit 1.0) (arrhenius_factor (Fin tv)) = true.
Proof.
  intros Hy Ht.
  exists (spec_reaction_rate (Fin yv) (Fin tv)).
  split; [rewrite reaction_rate_ok by reflexivity; reflexivity|].
  assert (He : 1 <= exp (- (50) / (1 * tv))).
  { apply Rle_trans with (exp 0); [rewrite exp_0; lra|].
    left. apply exp_increasing. unfold Rdiv.
    assert (/ (1 * tv) < 0) by (apply Rinv_lt_0_compat; lra). nra. }
  unfold spec_reaction_rate. rewrite arrhenius_factor_positive_temp.
  rewrite lit_one_val. cbn [fmul fleb xfloat_Arith]. rewrite k_val. simpl.
  split; apply Rleb_true; nra.
Qed.

(** The theorem at [Y = 1], [Temp = -1]. *)
Lemma reaction_rate_at_negative_temperature_witness :
  exists rr : xfloat,
    reaction_rate [Fin 1] [Fin (-1)] = Ok [rr] /\
    fleb (Const.k * Fin 1)%ar rr = true.
Proof.
  destruct (reaction_rate_at_negative_temperature 1 (-1)) as (rr & A & B & _).
  - lra.
  - lra.
  - exists rr. split; assumption.
Defined.
